(** * Envelope follower: the signal-processing core

    A shallow embedding of [SignalProcessor.h], [SignalProcessor.cpp] and the
    audio callbacks of [PluginProcessor.cpp] ([prepareToPlay],
    [updateMathParams], [processBlock]), followed by the properties of the
    pipeline: filter step, envelope update, half-life law, range mapping,
    message decimation, and what a sampling-frequency change touches.

    Numeric model.  The C++ [float] and [double] values are read as real
    numbers ([R]): rounding, infinities and NaN are outside the model, and a
    [double]-to-[float] parameter conversion is the identity.  The C++ [int]
    values are integers ([Z]); the conversion [(int)x] truncates toward zero
    and is taken on values that fit an [int].  The libm functions [tan], [pow],
    [fmax] and [abs] are their real counterparts. *)

From Stdlib Require Import Reals Lra Lia ZArith List Bool.
From Stdlib Require Import Factorial.
From Stdlib Require String.
Import ListNotations.

Open Scope R_scope.

(** ** C++ numeric primitives *)

Module Cxx.

(** [(int)x]: conversion of a floating value to [int], toward zero. *)
Definition to_int (x : R) : Z :=
  if Rle_dec 0 x then Zfloor x else Zceil x.

(** [fmax(x, y)]. *)
Definition fmax (x y : R) : R := Rmax x y.

(** [abs(x)] on a floating value (the overload that [<math.h>] brings into
    scope in C++). *)
Definition abs (x : R) : R := Rabs x.

(** [pow(b, e)] for a positive base. *)
Definition pow (b e : R) : R := Rpower b e.

End Cxx.

(** ** A small state monad: a method is a function from the object before the
    call to the returned value and the object after it. *)

Definition State (S A : Type) : Type := S -> A * S.

Definition ret {S A} (a : A) : State S A := fun s => (a, s).

Definition bind {S A B} (m : State S A) (f : A -> State S B) : State S B :=
  fun s => let (a, s') := m s in f a s'.

Definition gets {S A} (f : S -> A) : State S A := fun s => (f s, s).

Definition modify {S} (f : S -> S) : State S unit := fun s => (tt, f s).

(** Run a method of a member object, given how to read and write the member. *)
Definition zoom {S T A} (rd : S -> T) (wr : T -> S -> S) (m : State T A)
  : State S A :=
  fun s => let (a, t') := m (rd s) in (a, wr t' s).

Definition exec {S A} (m : State S A) (s : S) : S := snd (m s).

Declare Scope state_scope.
Delimit Scope state_scope with state.
Notation "x <- m ;; k" := (bind m (fun x => k))
  (at level 61, m at next level, right associativity) : state_scope.

(** ** [struct Filter] (SignalProcessor.h) *)

Module Filter.

(** [const double pi = 3.1415926535]. *)
Definition pi : R := 3.1415926535.

Record Filter : Type := mkFilter {
  prev_input : R;
  prev_output : R;
  cutoff_frequency : R;
  sampling_frequency : R;
  theta_c : R;
  k : R;
  alpha : R
}.

(** The default member initialisers. *)
Definition init : Filter :=
  {| prev_input := 0; prev_output := 0;
     cutoff_frequency := 1000; sampling_frequency := 44100;
     theta_c := 0; k := 0; alpha := 0 |}.

Definition calc_coeff (f : Filter) : Filter :=
  let theta_c' := 2 * pi * cutoff_frequency f / sampling_frequency f in
  let k' := tan (theta_c' / 2) in
  let alpha' := 1 + k' in
  {| prev_input := prev_input f; prev_output := prev_output f;
     cutoff_frequency := cutoff_frequency f;
     sampling_frequency := sampling_frequency f;
     theta_c := theta_c'; k := k'; alpha := alpha' |}.

Definition set_sampling_frequency (new_freq : R) (f : Filter) : Filter :=
  calc_coeff
    {| prev_input := prev_input f; prev_output := prev_output f;
       cutoff_frequency := cutoff_frequency f;
       sampling_frequency := new_freq;
       theta_c := theta_c f; k := k f; alpha := alpha f |}.

Definition set_cutoff_frequency (new_freq : R) (f : Filter) : Filter :=
  calc_coeff
    {| prev_input := prev_input f; prev_output := prev_output f;
       cutoff_frequency := new_freq;
       sampling_frequency := sampling_frequency f;
       theta_c := theta_c f; k := k f; alpha := alpha f |}.

(** Both filter steps end the same way: remember the sample and the output. *)
Definition remember (new_sample output : R) (f : Filter) : Filter :=
  {| prev_input := new_sample; prev_output := output;
     cutoff_frequency := cutoff_frequency f;
     sampling_frequency := sampling_frequency f;
     theta_c := theta_c f; k := k f; alpha := alpha f |}.

Definition calculate_lpf (new_sample : R) : State Filter R := fun f =>
  let a0 := 1 in
  let a1 := - (1 - k f) / alpha f in
  let b0 := k f / alpha f in
  let b1 := k f / alpha f in
  let output :=
    (1 / a0) * (b0 * new_sample + b1 * prev_input f - a1 * prev_output f) in
  (output, remember new_sample output f).

Definition calculate_hpf (new_sample : R) : State Filter R := fun f =>
  let a0 := 1 in
  let a1 := - (1 - k f) / alpha f in
  let b0 := 1 / alpha f in
  let b1 := -1 / alpha f in
  let output :=
    (1 / a0) * (b0 * new_sample + b1 * prev_input f - a1 * prev_output f) in
  (output, remember new_sample output f).

(** The stored coefficients are the ones [calc_coeff] derives from the
    stored cutoff and sampling frequencies. *)
Definition coeff_current (f : Filter) : Prop :=
  theta_c f = 2 * pi * cutoff_frequency f / sampling_frequency f
  /\ k f = tan (theta_c f / 2)
  /\ alpha f = 1 + k f.

End Filter.

(** ** [class SignalProcessor] (SignalProcessor.h, SignalProcessor.cpp) *)

Module SignalProcessor.

Record SignalProcessor : Type := mkSignalProcessor {
  current_envelope_position : R;
  min_val : R;
  max_val : R;
  gain : R;
  sampling_frequency : R;
  decay : R;
  lowFilter : Filter.Filter;
  highFilter : Filter.Filter
}.

Definition MIN_MIDI_VAL : Z := 0.
Definition MAX_MIDI_VAL : Z := 127.

(** Field updates. *)
Definition with_current_envelope_position (v : R) (sp : SignalProcessor) :=
  mkSignalProcessor v (min_val sp) (max_val sp) (gain sp)
    (sampling_frequency sp) (decay sp) (lowFilter sp) (highFilter sp).
Definition with_min_val (v : R) (sp : SignalProcessor) :=
  mkSignalProcessor (current_envelope_position sp) v (max_val sp) (gain sp)
    (sampling_frequency sp) (decay sp) (lowFilter sp) (highFilter sp).
Definition with_max_val (v : R) (sp : SignalProcessor) :=
  mkSignalProcessor (current_envelope_position sp) (min_val sp) v (gain sp)
    (sampling_frequency sp) (decay sp) (lowFilter sp) (highFilter sp).
Definition with_gain (v : R) (sp : SignalProcessor) :=
  mkSignalProcessor (current_envelope_position sp) (min_val sp) (max_val sp) v
    (sampling_frequency sp) (decay sp) (lowFilter sp) (highFilter sp).
Definition with_sampling_frequency (v : R) (sp : SignalProcessor) :=
  mkSignalProcessor (current_envelope_position sp) (min_val sp) (max_val sp)
    (gain sp) v (decay sp) (lowFilter sp) (highFilter sp).
Definition with_decay (v : R) (sp : SignalProcessor) :=
  mkSignalProcessor (current_envelope_position sp) (min_val sp) (max_val sp)
    (gain sp) (sampling_frequency sp) v (lowFilter sp) (highFilter sp).
Definition with_lowFilter (v : Filter.Filter) (sp : SignalProcessor) :=
  mkSignalProcessor (current_envelope_position sp) (min_val sp) (max_val sp)
    (gain sp) (sampling_frequency sp) (decay sp) v (highFilter sp).
Definition with_highFilter (v : Filter.Filter) (sp : SignalProcessor) :=
  mkSignalProcessor (current_envelope_position sp) (min_val sp) (max_val sp)
    (gain sp) (sampling_frequency sp) (decay sp) (lowFilter sp) v.

(** [SignalProcessor::SignalProcessor()], with the default member
    initialisers [decay = 0.99] and the two default-constructed filters. *)
Definition new : SignalProcessor :=
  {| current_envelope_position := 0;
     min_val := 0; max_val := 127; gain := 1;
     sampling_frequency := 44100;
     decay := 0.99;
     lowFilter := Filter.init; highFilter := Filter.init |}.

Definition updateEnvelopePosition (sample : R) (sp : SignalProcessor)
  : SignalProcessor :=
  let sp := with_current_envelope_position
              (current_envelope_position sp * decay sp) sp in
  if Rlt_dec (current_envelope_position sp) (Cxx.abs sample)
  then with_current_envelope_position (Cxx.abs sample) sp
  else sp.

Local Open Scope state_scope.

Definition takeInSample (sample : R) : State SignalProcessor unit :=
  g <- gets gain ;;
  let sample := sample * g in
  sample <- zoom lowFilter with_lowFilter (Filter.calculate_lpf sample) ;;
  sample <- zoom highFilter with_highFilter (Filter.calculate_hpf sample) ;;
  modify (updateEnvelopePosition sample).

Local Close Scope state_scope.

Definition getEnvelopePosition (sp : SignalProcessor) : Z :=
  let scaled_envelope_position :=
    current_envelope_position sp * (max_val sp - min_val sp) + min_val sp in
  let low_bound := Z.min (Cxx.to_int (max_val sp)) (Cxx.to_int (min_val sp)) in
  let high_bound := Z.max (Cxx.to_int (min_val sp)) (Cxx.to_int (max_val sp)) in
  Z.max (Z.min (Cxx.to_int scaled_envelope_position) high_bound) low_bound.

Definition setMinValue (new_min : R) : SignalProcessor -> SignalProcessor :=
  with_min_val new_min.

Definition setMaxValue (new_max : R) : SignalProcessor -> SignalProcessor :=
  with_max_val new_max.

Definition setGainValue (new_gain : R) : SignalProcessor -> SignalProcessor :=
  with_gain new_gain.

Definition setLowpassValue (lp_val : R) (sp : SignalProcessor) :=
  with_lowFilter (Filter.set_cutoff_frequency lp_val (lowFilter sp)) sp.

Definition setHighpassValue (hp_val : R) (sp : SignalProcessor) :=
  with_highFilter (Filter.set_cutoff_frequency hp_val (highFilter sp)) sp.

Definition setRecoveryTimeValue (recovery_time : R) (sp : SignalProcessor) :=
  let recovery_time := Cxx.fmax recovery_time 0.001 in
  let num_samples := recovery_time * sampling_frequency sp in
  with_decay (Cxx.pow 2 (-1 / num_samples)) sp.

Definition setSamplingFrequency (freq : R) (sp : SignalProcessor) :=
  let sp := with_sampling_frequency freq sp in
  let sp := with_lowFilter
              (Filter.set_sampling_frequency freq (lowFilter sp)) sp in
  with_highFilter (Filter.set_sampling_frequency freq (highFilter sp)) sp.

(** The public operations of the class, as data, and the states the
    constructor and any sequence of them lead to. *)
Inductive op : Type :=
| TakeInSample (sample : R)
| SetMinValue (v : R)
| SetMaxValue (v : R)
| SetGainValue (v : R)
| SetLowpassValue (v : R)
| SetHighpassValue (v : R)
| SetRecoveryTimeValue (v : R)
| SetSamplingFrequency (v : R).

Definition step (o : op) (sp : SignalProcessor) : SignalProcessor :=
  match o with
  | TakeInSample x => exec (takeInSample x) sp
  | SetMinValue v => setMinValue v sp
  | SetMaxValue v => setMaxValue v sp
  | SetGainValue v => setGainValue v sp
  | SetLowpassValue v => setLowpassValue v sp
  | SetHighpassValue v => setHighpassValue v sp
  | SetRecoveryTimeValue v => setRecoveryTimeValue v sp
  | SetSamplingFrequency v => setSamplingFrequency v sp
  end.

Definition run (ops : list op) (sp : SignalProcessor) : SignalProcessor :=
  fold_left (fun s o => step o s) ops sp.

Inductive reachable : SignalProcessor -> Prop :=
| reachable_new : reachable new
| reachable_step o sp : reachable sp -> reachable (step o sp).

End SignalProcessor.


(** ** [class EnvelopeFollowerAudioProcessor] (PluginProcessor.cpp): the audio
    callbacks.  The displays, the MIDI output device and the status string are
    the host's side of the plugin and are not part of the state below; a
    message handed to [sendCCMessage] is returned by the step that sends it. *)

Module Plugin.

(** A signed 32-bit [int] after [++]: the value wraps around. *)
Definition INT_MAX : Z := 2147483647.
Definition wrap_int (x : Z) : Z :=
  ((x + 2147483648) mod 4294967296 - 2147483648)%Z.
Definition incr (x : Z) : Z := wrap_int (x + 1).

Record EnvelopeFollowerAudioProcessor : Type := mkProcessor {
  gain_user_param : R;
  min_pos_user_param : R;
  max_pos_user_param : R;
  low_pass_user_param : R;
  hi_pass_user_param : R;
  recovery_user_param : R;
  midi_message_rate : R;
  samples_per_midi_message : Z;
  elapsed_since_midi : Z;
  elapsed_since_drawer : Z;
  signalProcessor : SignalProcessor.SignalProcessor;
  midi_channel : Z;
  midi_controller_type : Z;
  midi_value : Z
}.

(** [juce::MidiMessage::controllerEvent(channel, type, value)]. *)
Record controllerEvent : Type := mkControllerEvent {
  channel : Z;
  controller_type : Z;
  value : Z
}.

Definition with_signalProcessor (v : SignalProcessor.SignalProcessor)
  (p : EnvelopeFollowerAudioProcessor) :=
  mkProcessor (gain_user_param p) (min_pos_user_param p) (max_pos_user_param p)
    (low_pass_user_param p) (hi_pass_user_param p) (recovery_user_param p)
    (midi_message_rate p) (samples_per_midi_message p) (elapsed_since_midi p)
    (elapsed_since_drawer p) v (midi_channel p) (midi_controller_type p)
    (midi_value p).
Definition with_samples_per_midi_message (v : Z)
  (p : EnvelopeFollowerAudioProcessor) :=
  mkProcessor (gain_user_param p) (min_pos_user_param p) (max_pos_user_param p)
    (low_pass_user_param p) (hi_pass_user_param p) (recovery_user_param p)
    (midi_message_rate p) v (elapsed_since_midi p)
    (elapsed_since_drawer p) (signalProcessor p) (midi_channel p)
    (midi_controller_type p) (midi_value p).
Definition with_elapsed_since_midi (v : Z)
  (p : EnvelopeFollowerAudioProcessor) :=
  mkProcessor (gain_user_param p) (min_pos_user_param p) (max_pos_user_param p)
    (low_pass_user_param p) (hi_pass_user_param p) (recovery_user_param p)
    (midi_message_rate p) (samples_per_midi_message p) v
    (elapsed_since_drawer p) (signalProcessor p) (midi_channel p)
    (midi_controller_type p) (midi_value p).
Definition with_elapsed_since_drawer (v : Z)
  (p : EnvelopeFollowerAudioProcessor) :=
  mkProcessor (gain_user_param p) (min_pos_user_param p) (max_pos_user_param p)
    (low_pass_user_param p) (hi_pass_user_param p) (recovery_user_param p)
    (midi_message_rate p) (samples_per_midi_message p) (elapsed_since_midi p)
    v (signalProcessor p) (midi_channel p)
    (midi_controller_type p) (midi_value p).
Definition with_midi_value (v : Z) (p : EnvelopeFollowerAudioProcessor) :=
  mkProcessor (gain_user_param p) (min_pos_user_param p) (max_pos_user_param p)
    (low_pass_user_param p) (hi_pass_user_param p) (recovery_user_param p)
    (midi_message_rate p) (samples_per_midi_message p) (elapsed_since_midi p)
    (elapsed_since_drawer p) (signalProcessor p) (midi_channel p)
    (midi_controller_type p) v.

(** The constructor: the six user parameters at their defaults, ten messages
    per second, a fresh [SignalProcessor].  The three [int] counters have no
    initialiser; whatever they hold is an argument here. *)
Definition construct (samples_per_midi_message0 elapsed_since_midi0
                      elapsed_since_drawer0 : Z)
  : EnvelopeFollowerAudioProcessor :=
  {| gain_user_param := 0;
     min_pos_user_param := 0;
     max_pos_user_param := 100;
     low_pass_user_param := 20000;
     hi_pass_user_param := 0;
     recovery_user_param := 0;
     midi_message_rate := 10;
     samples_per_midi_message := samples_per_midi_message0;
     elapsed_since_midi := elapsed_since_midi0;
     elapsed_since_drawer := elapsed_since_drawer0;
     signalProcessor := SignalProcessor.new;
     midi_channel := 1;
     midi_controller_type := 14;
     midi_value := 0 |}.

Definition prepareToPlay (sampleRate : R) (samplesPerBlock : Z)
  (p : EnvelopeFollowerAudioProcessor) : EnvelopeFollowerAudioProcessor :=
  let p := with_signalProcessor
             (SignalProcessor.setSamplingFrequency sampleRate (signalProcessor p))
             p in
  let p := with_samples_per_midi_message
             (Cxx.to_int (sampleRate / midi_message_rate p)) p in
  let p := with_elapsed_since_midi 0 p in
  with_elapsed_since_drawer 0 p.

Definition updateMathParams (p : EnvelopeFollowerAudioProcessor)
  : EnvelopeFollowerAudioProcessor :=
  let amp_gain := Cxx.pow 10 (gain_user_param p / 20) in
  let min_value_scaled := (min_pos_user_param p / 100) * 127 in
  let max_value_scaled := (max_pos_user_param p / 100) * 127 in
  let lowpass_value := low_pass_user_param p in
  let highpass_value := hi_pass_user_param p in
  let recovery_time := recovery_user_param p in
  let sp := signalProcessor p in
  let sp := SignalProcessor.setMaxValue max_value_scaled sp in
  let sp := SignalProcessor.setMinValue min_value_scaled sp in
  let sp := SignalProcessor.setGainValue amp_gain sp in
  let sp := SignalProcessor.setLowpassValue lowpass_value sp in
  let sp := SignalProcessor.setHighpassValue highpass_value sp in
  let sp := SignalProcessor.setRecoveryTimeValue recovery_time sp in
  with_signalProcessor sp p.

Definition sendCCMessage (p : EnvelopeFollowerAudioProcessor) : controllerEvent :=
  {| channel := midi_channel p;
     controller_type := midi_controller_type p;
     value := midi_value p |}.

(** The body of the sample loop of [processBlock], for the samples [frame] of
    the input channels at one index: the message sent at this index, if any. *)
Definition process_frame (frame : list R)
  : State EnvelopeFollowerAudioProcessor (option controllerEvent) := fun p =>
  let sample := fold_left Rplus frame 0 in
  let sample := sample / INR (length frame) in
  let p := with_signalProcessor
             (exec (SignalProcessor.takeInSample sample) (signalProcessor p)) p in
  let p := with_elapsed_since_midi (incr (elapsed_since_midi p)) p in
  let p := with_elapsed_since_drawer (incr (elapsed_since_drawer p)) p in
  if Z.eqb (elapsed_since_midi p) (samples_per_midi_message p) then
    let p := with_elapsed_since_midi 0 p in
    let p := with_midi_value
               (SignalProcessor.getEnvelopePosition (signalProcessor p)) p in
    (Some (sendCCMessage p), p)
  else (None, p).

(** The sample loop: one entry of the result per index of the buffer. *)
Fixpoint process_frames (buffer : list (list R))
  : State EnvelopeFollowerAudioProcessor (list (option controllerEvent)) :=
  fun p =>
  match buffer with
  | [] => ([], p)
  | frame :: rest =>
      let (m, p) := process_frame frame p in
      let (ms, p) := process_frames rest p in
      (m :: ms, p)
  end.

Definition processBlock (buffer : list (list R))
  : State EnvelopeFollowerAudioProcessor (list (option controllerEvent)) :=
  fun p => process_frames buffer (updateMathParams p).

(** A run of [processBlock] calls, with the per-index results joined. *)
Fixpoint processBlocks (buffers : list (list (list R)))
  : State EnvelopeFollowerAudioProcessor (list (option controllerEvent)) :=
  fun p =>
  match buffers with
  | [] => ([], p)
  | buffer :: rest =>
      let (ms, p) := processBlock buffer p in
      let (ms', p) := processBlocks rest p in
      (ms ++ ms', p)
  end.

Definition with_midi_channel (v : Z) (p : EnvelopeFollowerAudioProcessor) :=
  mkProcessor (gain_user_param p) (min_pos_user_param p) (max_pos_user_param p)
    (low_pass_user_param p) (hi_pass_user_param p) (recovery_user_param p)
    (midi_message_rate p) (samples_per_midi_message p) (elapsed_since_midi p)
    (elapsed_since_drawer p) (signalProcessor p) v
    (midi_controller_type p) (midi_value p).
Definition with_midi_controller_type (v : Z)
  (p : EnvelopeFollowerAudioProcessor) :=
  mkProcessor (gain_user_param p) (min_pos_user_param p) (max_pos_user_param p)
    (low_pass_user_param p) (hi_pass_user_param p) (recovery_user_param p)
    (midi_message_rate p) (samples_per_midi_message p) (elapsed_since_midi p)
    (elapsed_since_drawer p) (signalProcessor p) (midi_channel p)
    v (midi_value p).

Definition setMidiChannel (new_channel : Z)
  : EnvelopeFollowerAudioProcessor -> EnvelopeFollowerAudioProcessor :=
  with_midi_channel new_channel.

Definition setMidiType (new_type : Z)
  : EnvelopeFollowerAudioProcessor -> EnvelopeFollowerAudioProcessor :=
  with_midi_controller_type new_type.

Definition getMidiChannel (p : EnvelopeFollowerAudioProcessor) : Z :=
  midi_channel p.

Definition getMidiType (p : EnvelopeFollowerAudioProcessor) : Z :=
  midi_controller_type p.


End Plugin.

(** ** Vocabulary of the properties *)

(** How a call ends.  No method above contains a [throw], an assertion or an
    error return, so every call of the embedding ends in [Completed]; the
    conditions are the two the interface description names. *)
Inductive condition : Type := UsedBeforePrepared | InvalidConfiguration.

Inductive outcome (S : Type) : Type :=
| Completed (s : S)
| Failed (c : condition).
Arguments Completed {S} s.
Arguments Failed {S} c.

Definition call {S A} (m : State S A) (s : S) : outcome S :=
  Completed (exec m s).

Definition call_setter {S} (f : S -> S) (s : S) : outcome S := Completed (f s).



(** The message counter on its own: from counter [c] and period [s], the
    flags of [n] further samples (a message or none) and the counter after. *)
Fixpoint ticks (s c : Z) (n : nat) : list bool * Z :=
  match n with
  | O => ([], c)
  | S n' =>
      let c' := Plugin.incr c in
      if Z.eqb c' s
      then let (l, e) := ticks s 0 n' in (true :: l, e)
      else let (l, e) := ticks s c' n' in (false :: l, e)
  end.

Definition sent {A} (m : option A) : bool :=
  match m with Some _ => true | None => false end.


(** ** [CustomKnobs::drawRotarySlider] (CustomKnobs.cpp): the arithmetic that
    picks the sprite of the knob and places it.  The slider's value and range
    and the size of the sprite sheet are read from JUCE objects and are
    arguments here; the result is the argument list of [drawImage], or nothing
    when the sheet is not a valid image and the text "NOIMG" is drawn. *)

Module CustomKnobs.

Record drawImage : Type := mkDrawImage {
  destX : Z; destY : Z; destW : Z; destH : Z;
  srcX : Z; srcY : Z; srcW : Z; srcH : Z
}.

Definition drawRotarySlider (imgValid : bool) (imgWidth imgHeight : Z)
  (x y width height : Z) (value minimum maximum : R) : option drawImage :=
  if imgValid then
    let rotation := (value - minimum) / (maximum - minimum) in
    let frames := Z.quot imgHeight imgWidth in
    let frameID := Cxx.to_int (IZR (Zceil (rotation * (IZR frames - 1)))) in
    let radius := Rmin (IZR width / 2) (IZR height / 2) in
    let centerX := IZR x + IZR width * 0.5 in
    let centerY := IZR y + IZR height * 0.5 in
    let rx := centerX - radius - 1 in
    let ry := centerY - radius in
    Some {| destX := Cxx.to_int rx; destY := Cxx.to_int ry;
            destW := 2 * Cxx.to_int radius; destH := 2 * Cxx.to_int radius;
            srcX := 0; srcY := frameID * imgWidth;
            srcW := imgWidth; srcH := imgWidth |}
  else None.

End CustomKnobs.

(** ** Runs of samples *)



(** The samples of a list fed to the envelope in turn. *)
Definition feed (xs : list R) (sp : SignalProcessor.SignalProcessor)
  : SignalProcessor.SignalProcessor :=
  fold_left (fun s x => SignalProcessor.updateEnvelopePosition x s) xs sp.

(** The samples of a list taken in by the processor in turn. *)
Definition takeInSamples (xs : list R) (sp : SignalProcessor.SignalProcessor)
  : SignalProcessor.SignalProcessor :=
  fold_left (fun s x => exec (SignalProcessor.takeInSample x) s) xs sp.

(** Nothing remembered: both filters' memories and the level are 0. *)
Definition at_rest (sp : SignalProcessor.SignalProcessor) : Prop :=
  SignalProcessor.current_envelope_position sp = 0
  /\ Filter.prev_input (SignalProcessor.lowFilter sp) = 0
  /\ Filter.prev_output (SignalProcessor.lowFilter sp) = 0
  /\ Filter.prev_input (SignalProcessor.highFilter sp) = 0
  /\ Filter.prev_output (SignalProcessor.highFilter sp) = 0.

(** The messages among the per-index results of a block. *)
Definition messages {A} (ms : list (option A)) : list A :=
  flat_map (fun m => match m with Some a => [a] | None => [] end) ms.

(** Two filters, or two processors, with the same settings: everything but
    the filter memories and the envelope level. *)
Definition same_filter_settings (a b : Filter.Filter) : Prop :=
  Filter.cutoff_frequency a = Filter.cutoff_frequency b
  /\ Filter.sampling_frequency a = Filter.sampling_frequency b
  /\ Filter.theta_c a = Filter.theta_c b
  /\ Filter.k a = Filter.k b
  /\ Filter.alpha a = Filter.alpha b.

Definition same_settings (a b : SignalProcessor.SignalProcessor) : Prop :=
  SignalProcessor.min_val a = SignalProcessor.min_val b
  /\ SignalProcessor.max_val a = SignalProcessor.max_val b
  /\ SignalProcessor.gain a = SignalProcessor.gain b
  /\ SignalProcessor.sampling_frequency a = SignalProcessor.sampling_frequency b
  /\ SignalProcessor.decay a = SignalProcessor.decay b
  /\ same_filter_settings (SignalProcessor.lowFilter a)
       (SignalProcessor.lowFilter b)
  /\ same_filter_settings (SignalProcessor.highFilter a)
       (SignalProcessor.highFilter b).

(** ** [getStateInformation] and [setStateInformation] (PluginProcessor.cpp)

    The saved state is a [juce::XmlElement]: a tag name and named attributes,
    read back with a default of 0 when absent.  Strings are sequences of
    characters.  Two JUCE operations are arguments of [setStateInformation]:
    [hasTagName], the test of an element's tag name against a name, and
    [assign], the value an [AudioParameterFloat] of a given range holds after
    an assignment.  The conversion between an element and its binary block is
    JUCE's: [getStateInformation] gives the element it hands to
    [copyXmlToBinary], [setStateInformation] takes the result of
    [getXmlFromBinary], which is no element when the block does not parse. *)

Module PluginState.

Import Plugin.
Import String.StringSyntax.
Local Open Scope string_scope.

Record XmlElement : Type := mkXmlElement {
  tagName : String.string;
  doubleAttributes : list (String.string * R);
  intAttributes : list (String.string * Z)
}.

Fixpoint findAttribute {A} (name : String.string)
  (l : list (String.string * A)) : option A :=
  match l with
  | [] => None
  | (n, v) :: rest =>
      if String.eqb n name then Some v else findAttribute name rest
  end.

Definition setDoubleAttribute (name : String.string) (v : R)
  (e : XmlElement) : XmlElement :=
  mkXmlElement (tagName e) ((name, v) :: doubleAttributes e) (intAttributes e).

Definition setIntAttribute (name : String.string) (v : Z)
  (e : XmlElement) : XmlElement :=
  mkXmlElement (tagName e) (doubleAttributes e) ((name, v) :: intAttributes e).

Definition getDoubleAttribute (name : String.string) (e : XmlElement) : R :=
  match findAttribute name (doubleAttributes e) with
  | Some v => v
  | None => 0
  end.

Definition getIntAttribute (name : String.string) (e : XmlElement) : Z :=
  match findAttribute name (intAttributes e) with
  | Some v => v
  | None => 0%Z
  end.

Definition getStateInformation (p : EnvelopeFollowerAudioProcessor)
  : XmlElement :=
  let xml := mkXmlElement "sliderParams" [] [] in
  let xml := setDoubleAttribute "gain" (gain_user_param p) xml in
  let xml := setDoubleAttribute "min" (min_pos_user_param p) xml in
  let xml := setDoubleAttribute "max" (max_pos_user_param p) xml in
  let xml := setDoubleAttribute "lo" (low_pass_user_param p) xml in
  let xml := setDoubleAttribute "hi" (hi_pass_user_param p) xml in
  let xml := setDoubleAttribute "recovery" (recovery_user_param p) xml in
  let xml := setIntAttribute "channel" (midi_channel p) xml in
  setIntAttribute "type" (midi_controller_type p) xml.

Definition with_user_params (g mn mx lo hi rec : R)
  (p : EnvelopeFollowerAudioProcessor) :=
  mkProcessor g mn mx lo hi rec
    (midi_message_rate p) (samples_per_midi_message p) (elapsed_since_midi p)
    (elapsed_since_drawer p) (signalProcessor p) (midi_channel p)
    (midi_controller_type p) (midi_value p).

Section Juce.

Variable hasTagName : XmlElement -> String.string -> bool.
Variable assign : R -> R -> R -> R.

Definition setStateInformation (xmlState : option XmlElement)
  (p : EnvelopeFollowerAudioProcessor) : EnvelopeFollowerAudioProcessor :=
  match xmlState with
  | None => p
  | Some xml =>
      let p :=
        if hasTagName xml "gain"
        then with_user_params
               (assign (-30) 30 (getDoubleAttribute "gain" xml))
               (min_pos_user_param p) (max_pos_user_param p)
               (low_pass_user_param p) (hi_pass_user_param p)
               (recovery_user_param p) p
        else p in
      let p :=
        if hasTagName xml "min"
        then with_user_params (gain_user_param p)
               (assign 0 100 (getDoubleAttribute "min" xml))
               (max_pos_user_param p)
               (low_pass_user_param p) (hi_pass_user_param p)
               (recovery_user_param p) p
        else p in
      let p :=
        if hasTagName xml "max"
        then with_user_params (gain_user_param p) (min_pos_user_param p)
               (assign 0 100 (getDoubleAttribute "max" xml))
               (low_pass_user_param p) (hi_pass_user_param p)
               (recovery_user_param p) p
        else p in
      let p :=
        if hasTagName xml "lo"
        then with_user_params (gain_user_param p) (min_pos_user_param p)
               (max_pos_user_param p)
               (assign 0 20000 (getDoubleAttribute "lo" xml))
               (hi_pass_user_param p) (recovery_user_param p) p
        else p in
      let p :=
        if hasTagName xml "hi"
        then with_user_params (gain_user_param p) (min_pos_user_param p)
               (max_pos_user_param p) (low_pass_user_param p)
               (assign 0 20000 (getDoubleAttribute "hi" xml))
               (recovery_user_param p) p
        else p in
      let p :=
        if hasTagName xml "recovery"
        then with_user_params (gain_user_param p) (min_pos_user_param p)
               (max_pos_user_param p) (low_pass_user_param p)
               (hi_pass_user_param p)
               (assign 0 1 (getDoubleAttribute "recovery" xml)) p
        else p in
      let p :=
        if hasTagName xml "channel"
        then with_midi_channel (getIntAttribute "channel" xml) p
        else p in
      if hasTagName xml "type"
      then with_midi_controller_type (getIntAttribute "type" xml) p
      else p
  end.

End Juce.

(** A tag-name test and an assignment to instantiate the two with: exact
    comparison, and storing the assigned value clamped to the range. *)
Definition hasTagName_exact (e : XmlElement) (name : String.string) : bool :=
  String.eqb (tagName e) name.

Definition assign_clamped (lo hi v : R) : R := Rmax lo (Rmin v hi).

End PluginState.

(** * Properties *)

Import SignalProcessor.

(** ** The filter step *)

(** C1. One filter step returns, in lowpass mode,
    [(k/alpha)*sample + (k/alpha)*previousInput + ((1-k)/alpha)*previousOutput]
    and, in highpass mode,
    [(1/alpha)*sample - (1/alpha)*previousInput + ((1-k)/alpha)*previousOutput],
    for the stored coefficients [k] and [alpha]; the step stores the sample as
    previousInput and the returned value as previousOutput and leaves the
    frequencies and coefficients as they were; [calc_coeff], which both
    frequency setters run, stores [theta = 2*pi*cutoffFrequency/samplingFrequency],
    [k = tan(theta/2)] and [alpha = 1 + k]. *)
Theorem filter_step_formula :
  forall (f : Filter.Filter) (sample : R),
    let lp := Filter.calculate_lpf sample f in
    let hp := Filter.calculate_hpf sample f in
    (fst lp = (Filter.k f / Filter.alpha f) * sample
              + (Filter.k f / Filter.alpha f) * Filter.prev_input f
              + ((1 - Filter.k f) / Filter.alpha f) * Filter.prev_output f
     /\ fst hp = (1 / Filter.alpha f) * sample
                 - (1 / Filter.alpha f) * Filter.prev_input f
                 + ((1 - Filter.k f) / Filter.alpha f) * Filter.prev_output f)
    /\ (snd lp = Filter.mkFilter sample (fst lp) (Filter.cutoff_frequency f)
                   (Filter.sampling_frequency f) (Filter.theta_c f)
                   (Filter.k f) (Filter.alpha f)
        /\ snd hp = Filter.mkFilter sample (fst hp) (Filter.cutoff_frequency f)
                      (Filter.sampling_frequency f) (Filter.theta_c f)
                      (Filter.k f) (Filter.alpha f))
    /\ (let theta := 2 * Filter.pi * Filter.cutoff_frequency f
                     / Filter.sampling_frequency f in
        Filter.calc_coeff f
        = Filter.mkFilter (Filter.prev_input f) (Filter.prev_output f)
            (Filter.cutoff_frequency f) (Filter.sampling_frequency f)
            theta (tan (theta / 2)) (1 + tan (theta / 2)))
    /\ (forall fs, Filter.coeff_current (Filter.set_sampling_frequency fs f))
    /\ (forall fc, Filter.coeff_current (Filter.set_cutoff_frequency fc f)).
Proof.
  intros f sample lp hp; subst lp hp.
  unfold Filter.calculate_lpf, Filter.calculate_hpf, Filter.remember.
  cbn [fst snd].
  split; [split | split; [split | split; [|split]]];
    try reflexivity; try (intro; repeat split).
  - unfold Rdiv; rewrite Rinv_1; ring.
  - unfold Rdiv; rewrite Rinv_1; ring.
Qed.

(** ** The envelope update *)

Lemma updateEnvelopePosition_level (sample : R) (sp : SignalProcessor) :
  current_envelope_position (updateEnvelopePosition sample sp)
  = Rmax (current_envelope_position sp * decay sp) (Rabs sample).
Proof.
  unfold updateEnvelopePosition, Cxx.abs, Rmax; cbn.
  destruct (Rlt_dec _ _) as [Hlt | Hge]; destruct (Rle_dec _ _) as [Hle | Hgt];
    cbn; lra.
Qed.

Lemma updateEnvelopePosition_frame (sample : R) (sp : SignalProcessor) :
  updateEnvelopePosition sample sp
  = with_current_envelope_position
      (current_envelope_position (updateEnvelopePosition sample sp)) sp.
Proof.
  unfold updateEnvelopePosition; cbn.
  destruct (Rlt_dec _ _); reflexivity.
Qed.

Lemma updateEnvelopePosition_nonneg (sample : R) (sp : SignalProcessor) :
  0 <= current_envelope_position (updateEnvelopePosition sample sp).
Proof.
  rewrite updateEnvelopePosition_level.
  eapply Rle_trans; [apply Rabs_pos | apply Rmax_r].
Qed.

(** C2. One envelope update multiplies the level by the decay coefficient and
    then takes the maximum with the magnitude of the sample, changing no other
    field; a sample whose magnitude exceeds the decayed level sets the level to
    exactly that magnitude, whatever the level was. *)
Theorem envelope_update_max :
  forall (sp : SignalProcessor) (sample : R),
    let sp' := updateEnvelopePosition sample sp in
    current_envelope_position sp'
    = Rmax (current_envelope_position sp * decay sp) (Rabs sample)
    /\ sp' = with_current_envelope_position (current_envelope_position sp') sp
    /\ (current_envelope_position sp * decay sp < Rabs sample ->
        current_envelope_position sp' = Rabs sample).
Proof.
  intros sp sample sp'; subst sp'.
  split; [apply updateEnvelopePosition_level |].
  split; [apply updateEnvelopePosition_frame |].
  intros Hlt; rewrite updateEnvelopePosition_level.
  apply Rmax_right; lra.
Qed.

Lemma envelope_update_max_witness :
  current_envelope_position new * decay new < Rabs 0.5
  /\ current_envelope_position (updateEnvelopePosition 0.5 new) = Rabs 0.5.
Proof.
  assert (H : current_envelope_position new * decay new < Rabs 0.5).
  { cbn. rewrite Rabs_pos_eq; lra. }
  split; [exact H |].
  exact (proj2 (proj2 (envelope_update_max new 0.5)) H).
Defined.

(** ** The half-life law *)






(** ** The range mapping *)

Lemma to_int_IZR (z : Z) : Cxx.to_int (IZR z) = z.
Proof.
  unfold Cxx.to_int. destruct (Rle_dec 0 (IZR z)).
  - apply ZfloorZ.
  - apply Zceil_eq. lra.
Qed.

Lemma to_int_le (x y : R) : x <= y -> (Cxx.to_int x <= Cxx.to_int y)%Z.
Proof.
  intros Hxy. unfold Cxx.to_int.
  destruct (Rle_dec 0 x) as [Hx | Hx]; destruct (Rle_dec 0 y) as [Hy | Hy].
  - apply Zfloor_le; exact Hxy.
  - lra.
  - apply Z.le_trans with 0%Z.
    + destruct (Zceil_bound x) as [Hlo _].
      assert (H : (Zceil x < 1)%Z) by (apply lt_IZR; lra). lia.
    + apply Zfloor_lub; exact Hy.
  - apply Zceil_le; exact Hxy.
Qed.



Lemma to_int_below (x : R) (z : Z) : IZR z <= x < IZR z + 1 -> (0 <= z)%Z ->
  Cxx.to_int x = z.
Proof.
  intros Hx Hz. unfold Cxx.to_int.
  apply IZR_le in Hz.
  destruct (Rle_dec 0 x); [apply Zfloor_eq; exact Hx | lra].
Qed.

(** An inverted range: bounds 127 and 0, level 0.25, mapped to 95. *)
Example inverted_range_maps_down :
  getEnvelopePosition
    (with_current_envelope_position 0.25 (setMinValue 127 (setMaxValue 0 new)))
  = 95%Z.
Proof.
  unfold getEnvelopePosition. cbn.
  replace (Cxx.to_int 127) with 127%Z by (symmetry; apply to_int_IZR).
  replace (Cxx.to_int 0) with 0%Z by (symmetry; apply to_int_IZR).
  rewrite (to_int_below (0.25 * (0 - 127) + 127) 95) by (try lia; lra).
  reflexivity.
Qed.




(** ** The message counter *)

Import Plugin.

Lemma incr_small (c : Z) : (0 <= c < INT_MAX)%Z -> incr c = (c + 1)%Z.
Proof.
  unfold incr, wrap_int, INT_MAX. intros H.
  rewrite Z.mod_small by lia. lia.
Qed.

Example ticks_period_3 :
  ticks 3 0 7 = ([false; false; true; false; false; true; false], 1%Z).
Proof. reflexivity. Qed.

Section Counter.

Variable s : Z.
Hypothesis period_fits : (0 < s <= INT_MAX)%Z.

Lemma ticks_app (n m : nat) :
  forall c,
    ticks s c (n + m)
    = let (l1, e1) := ticks s c n in
      let (l2, e2) := ticks s e1 m in (l1 ++ l2, e2).
Proof.
  induction n as [| n IH]; intros c; cbn [ticks Nat.add].
  - destruct (ticks s c m); reflexivity.
  - destruct (Z.eqb (incr c) s).
    + rewrite IH. destruct (ticks s 0 n) as [l1 e1].
      destruct (ticks s e1 m); reflexivity.
    + rewrite IH. destruct (ticks s (incr c) n) as [l1 e1].
      destruct (ticks s e1 m); reflexivity.
Qed.

(** From a counter within the period: the flag of the [i]-th further sample
    says whether the period divides the count so far, the flags set number
    the whole periods completed, and the counter stays within the period. *)
Lemma ticks_spec (n : nat) :
  forall c, (0 <= c < s)%Z ->
    length (fst (ticks s c n)) = n
    /\ snd (ticks s c n) = ((c + Z.of_nat n) mod s)%Z
    /\ (forall i, (i < n)%nat ->
          nth i (fst (ticks s c n)) false
          = Z.eqb ((c + Z.of_nat i + 1) mod s) 0)
    /\ Z.of_nat (length (filter (fun b => b) (fst (ticks s c n))))
       = ((c + Z.of_nat n) / s)%Z.
Proof.
  induction n as [| n IH]; intros c Hc.
  - cbn. rewrite Z.add_0_r, Z.mod_small, Z.div_small by lia.
    repeat split; try reflexivity. intros i Hi; lia.
  - cbn [ticks]. rewrite incr_small by lia.
    rewrite Nat2Z.inj_succ.
    destruct (Z.eqb_spec (c + 1) s) as [He | Hne].
    + destruct (IH 0%Z ltac:(lia)) as (Hlen & Hend & Hnth & Hcnt).
      destruct (ticks s 0 n) as [l e]. cbn [fst snd] in *.
      replace (c + Z.succ (Z.of_nat n))%Z with (Z.of_nat n + 1 * s)%Z by lia.
      rewrite Z_mod_plus_full, Z_div_plus_full by lia.
      cbn [length filter]. rewrite Nat2Z.inj_succ.
      rewrite Z.add_0_l in Hend, Hcnt.
      split; [lia | split; [exact Hend | split; [| lia]]].
      intros [| i] Hi; cbn [nth].
      * replace (c + Z.of_nat 0 + 1)%Z with s by lia.
        rewrite Z_mod_same_full. reflexivity.
      * rewrite Hnth by lia. rewrite Nat2Z.inj_succ.
        replace (c + Z.succ (Z.of_nat i) + 1)%Z
          with (0 + Z.of_nat i + 1 + 1 * s)%Z by lia.
        rewrite Z_mod_plus_full. reflexivity.
    + destruct (IH (c + 1)%Z ltac:(lia)) as (Hlen & Hend & Hnth & Hcnt).
      destruct (ticks s (c + 1) n) as [l e]. cbn [fst snd] in *.
      replace (c + Z.succ (Z.of_nat n))%Z with (c + 1 + Z.of_nat n)%Z by lia.
      cbn [length filter].
      split; [lia | split; [exact Hend | split; [| exact Hcnt]]].
      intros [| i] Hi; cbn [nth].
      * rewrite Z.mod_small by lia. symmetry. apply Z.eqb_neq. lia.
      * rewrite Hnth by lia. rewrite Nat2Z.inj_succ.
        replace (c + Z.succ (Z.of_nat i) + 1)%Z
          with (c + 1 + Z.of_nat i + 1)%Z by lia.
        reflexivity.
Qed.

End Counter.

(** One pass of the sample loop: the counter goes up by one; if it then
    equals the period a message is sent and the counter returns to 0. *)
Lemma process_frame_counter (frame : list R) (p : EnvelopeFollowerAudioProcessor) :
  let r := process_frame frame p in
  samples_per_midi_message (snd r) = samples_per_midi_message p
  /\ (if Z.eqb (incr (elapsed_since_midi p)) (samples_per_midi_message p)
      then sent (fst r) = true /\ elapsed_since_midi (snd r) = 0%Z
      else sent (fst r) = false
           /\ elapsed_since_midi (snd r) = incr (elapsed_since_midi p)).
Proof.
  unfold process_frame. cbn.
  destruct (Z.eqb (incr (elapsed_since_midi p)) (samples_per_midi_message p));
    cbn; repeat split.
Qed.

(** The sample loop moves the counter exactly as [ticks] does, and leaves the
    period alone. *)
Lemma process_frames_ticks (buffer : list (list R)) :
  forall p,
    (map sent (fst (process_frames buffer p)),
     elapsed_since_midi (snd (process_frames buffer p)))
    = ticks (samples_per_midi_message p) (elapsed_since_midi p) (length buffer)
    /\ samples_per_midi_message (snd (process_frames buffer p))
       = samples_per_midi_message p.
Proof.
  induction buffer as [| frame rest IH]; intros p.
  - split; reflexivity.
  - cbn [process_frames length ticks].
    destruct (process_frame_counter frame p) as [HS Hc].
    destruct (process_frame frame p) as [m q]. cbn [fst snd] in HS, Hc.
    destruct (IH q) as [IH1 IH2]. destruct (process_frames rest q) as [ms q'].
    cbn [fst snd map] in *. rewrite HS in IH1, IH2.
    destruct (Z.eqb (incr (elapsed_since_midi p)) (samples_per_midi_message p));
      destruct Hc as [Hm He]; rewrite He in IH1; rewrite <- IH1, Hm;
      split; [reflexivity | exact IH2 | reflexivity | exact IH2].
Qed.

Lemma processBlocks_ticks (buffers : list (list (list R))) :
  forall p,
    (map sent (fst (processBlocks buffers p)),
     elapsed_since_midi (snd (processBlocks buffers p)))
    = ticks (samples_per_midi_message p) (elapsed_since_midi p)
        (length (concat buffers))
    /\ samples_per_midi_message (snd (processBlocks buffers p))
       = samples_per_midi_message p.
Proof.
  induction buffers as [| buffer rest IH]; intros p.
  - split; reflexivity.
  - cbn [processBlocks concat]. rewrite length_app, ticks_app.
    unfold processBlock.
    destruct (process_frames_ticks buffer (updateMathParams p)) as [H1 H2].
    destruct (process_frames buffer (updateMathParams p)) as [ms q].
    cbn [fst snd] in H1, H2.
    change (samples_per_midi_message (updateMathParams p))
      with (samples_per_midi_message p) in *.
    change (elapsed_since_midi (updateMathParams p))
      with (elapsed_since_midi p) in *.
    rewrite <- H1.
    destruct (IH q) as [H3 H4]. destruct (processBlocks rest q) as [ms' q'].
    cbn [fst snd] in *. rewrite <- H2, <- H3, map_app.
    split; [reflexivity | congruence].
Qed.

Lemma filter_sent_length {A} (ms : list (option A)) :
  length (filter (fun b : bool => b) (map sent ms)) = length (filter sent ms).
Proof.
  induction ms as [| m ms IH]; [reflexivity |].
  cbn [map filter]. destruct (sent m); cbn [length]; congruence.
Qed.

Lemma to_int_positive_floor (x : R) : (0 < Cxx.to_int x)%Z -> Cxx.to_int x = Zfloor x.
Proof.
  unfold Cxx.to_int. destruct (Rle_dec 0 x) as [H | H]; [reflexivity |].
  intros Hpos. destruct (Zceil_bound x) as [Hlo _].
  assert (Hc : (Zceil x < 1)%Z) by (apply lt_IZR; lra). lia.
Qed.

(** C5. After [prepareToPlay] with sampling frequency [Fs], the counter is 0
    and the period is [S = floor(Fs / rate)] (for a period of at least one
    sample that fits an [int]).  Over the [N] samples of any run of
    [processBlock] calls that follows, a message is sent at the sample with
    1-based number [j] exactly when [S] divides [j], that is at samples
    [S, 2S, 3S, ...]; [floor(N/S)] messages are sent in all; the counter ends
    at [N mod S] and the period is unchanged.  Each sample adds one to the
    counter, and a message is sent exactly when the counter then equals the
    period, which returns it to 0. *)
Theorem messages_every_period :
  forall (p : EnvelopeFollowerAudioProcessor) (sampleRate : R)
         (samplesPerBlock : Z) (buffers : list (list (list R))),
    let p0 := prepareToPlay sampleRate samplesPerBlock p in
    let s := samples_per_midi_message p0 in
    let n := length (concat buffers) in
    let r := processBlocks buffers p0 in
    (0 < s <= INT_MAX)%Z ->
    s = Zfloor (sampleRate / midi_message_rate p)
    /\ elapsed_since_midi p0 = 0%Z
    /\ (forall frame q,
          let c := incr (elapsed_since_midi q) in
          let q' := process_frame frame q in
          if Z.eqb c (samples_per_midi_message q)
          then sent (fst q') = true /\ elapsed_since_midi (snd q') = 0%Z
          else sent (fst q') = false /\ elapsed_since_midi (snd q') = c)
    /\ length (fst r) = n
    /\ (forall i, (i < n)%nat ->
          sent (nth i (fst r) None) = Z.eqb ((Z.of_nat i + 1) mod s) 0)
    /\ Z.of_nat (length (filter sent (fst r))) = (Z.of_nat n / s)%Z
    /\ elapsed_since_midi (snd r) = (Z.of_nat n mod s)%Z
    /\ samples_per_midi_message (snd r) = s.
Proof.
  intros p sampleRate samplesPerBlock buffers p0 s n r Hs.
  destruct (processBlocks_ticks buffers p0) as [Ht HS].
  fold r s n in Ht, HS.
  change (elapsed_since_midi p0) with 0%Z in Ht.
  destruct (ticks_spec s Hs n 0%Z ltac:(lia)) as (Hlen & Hend & Hnth & Hcnt).
  rewrite <- Ht in Hlen, Hend, Hnth, Hcnt. cbn [fst snd] in *.
  rewrite Z.add_0_l in Hend, Hcnt.
  rewrite length_map in Hlen. rewrite filter_sent_length in Hcnt.
  split; [apply to_int_positive_floor; apply Hs |].
  split; [reflexivity |].
  split; [intros frame q; apply process_frame_counter |].
  split; [exact Hlen |].
  split; [| split; [exact Hcnt | split; [exact Hend | exact HS]]].
  intros i Hi. specialize (Hnth i Hi). rewrite Z.add_0_l in Hnth.
  rewrite <- Hnth.
  change false with (@sent controllerEvent None). symmetry. apply map_nth.
Qed.

Lemma messages_every_period_witness :
  let p0 := prepareToPlay 20 512 (Plugin.construct 0 0 0) in
  let buffers := [[[0.5]; [0.5]]; [[0.5]]] in
  (0 < samples_per_midi_message p0 <= INT_MAX)%Z
  /\ Z.of_nat (length (filter sent (fst (processBlocks buffers p0))))
     = (Z.of_nat (length (concat buffers)) / samples_per_midi_message p0)%Z.
Proof.
  intros p0 buffers.
  assert (H : (0 < samples_per_midi_message p0 <= INT_MAX)%Z).
  { cbn. rewrite (to_int_below (20 / 10) 2) by (try lia; lra).
    unfold INT_MAX; lia. }
  split; [exact H |].
  exact (proj1 (proj2 (proj2 (proj2 (proj2 (proj2
           (messages_every_period (Plugin.construct 0 0 0) 20 512 buffers H))))))).
Defined.

(** ** Calls before and at preparation *)

Lemma takeInSample_unfold (x : R) (sp : SignalProcessor) :
  let lp := Filter.calculate_lpf (x * gain sp) (lowFilter sp) in
  let hp := Filter.calculate_hpf (fst lp) (highFilter sp) in
  exec (takeInSample x) sp
  = updateEnvelopePosition (fst hp)
      (with_highFilter (snd hp) (with_lowFilter (snd lp) sp)).
Proof. reflexivity. Qed.

(** C6, as the code has it.  Processing a sample never fails, prepared or
    not: [takeInSample] completes in every state, running the lowpass step on
    the gain-scaled sample, the highpass step on its output and the envelope
    update on the result, with whatever coefficients the filters hold.  On a
    freshly constructed processor these are the zero initialisers
    [k = 0, alpha = 0], which are not the coefficients of its default
    frequencies. *)
Theorem sample_processing_never_fails :
  forall (sp : SignalProcessor) (x : R),
    let lp := Filter.calculate_lpf (x * gain sp) (lowFilter sp) in
    let hp := Filter.calculate_hpf (fst lp) (highFilter sp) in
    call (takeInSample x) sp
    = Completed (updateEnvelopePosition (fst hp)
                   (with_highFilter (snd hp) (with_lowFilter (snd lp) sp)))
    /\ Filter.k (lowFilter new) = 0 /\ Filter.alpha (lowFilter new) = 0
    /\ Filter.k (highFilter new) = 0 /\ Filter.alpha (highFilter new) = 0
    /\ ~ Filter.coeff_current (lowFilter new)
    /\ ~ Filter.coeff_current (highFilter new).
Proof.
  intros sp x lp hp.
  split; [reflexivity |].
  repeat (split; [reflexivity |]).
  split; intros (_ & _ & H); cbn in H; lra.
Qed.

(** C6 as stated fails on the constructor's state: a sample processed before
    any preparation is not refused; the lowpass filter, holding
    [k = 0, alpha = 0], takes it in and the call completes. *)
Lemma sample_before_prepare_is_processed :
  call (takeInSample 1) new <> Failed UsedBeforePrepared
  /\ Filter.k (lowFilter new) = 0
  /\ Filter.alpha (lowFilter new) = 0
  /\ Filter.prev_input (lowFilter (exec (takeInSample 1) new)) = 1.
Proof.
  split; [discriminate |].
  split; [reflexivity | split; [reflexivity |]].
  rewrite takeInSample_unfold, updateEnvelopePosition_frame. cbn. lra.
Qed.

(** C7, as the code has it.  [prepareToPlay] accepts every sampling frequency
    [f], zero and negative ones included, and completes: it stores [f] in the
    processor and in both filters, recomputes each filter's angle as
    [2*pi*cutoff/f] (a division by [f]) and the coefficients from it, sets the
    period to [(int)(f / rate)] and both counters to 0. *)
Theorem prepare_accepts_any_frequency :
  forall (p : EnvelopeFollowerAudioProcessor) (f : R) (samplesPerBlock : Z),
    let p' := prepareToPlay f samplesPerBlock p in
    let sp := signalProcessor p in
    let sp' := signalProcessor p' in
    call_setter (prepareToPlay f samplesPerBlock) p = Completed p'
    /\ sampling_frequency sp' = f
    /\ Filter.sampling_frequency (lowFilter sp') = f
    /\ Filter.sampling_frequency (highFilter sp') = f
    /\ Filter.theta_c (lowFilter sp')
       = 2 * Filter.pi * Filter.cutoff_frequency (lowFilter sp) / f
    /\ Filter.theta_c (highFilter sp')
       = 2 * Filter.pi * Filter.cutoff_frequency (highFilter sp) / f
    /\ Filter.coeff_current (lowFilter sp')
    /\ Filter.coeff_current (highFilter sp')
    /\ samples_per_midi_message p' = Cxx.to_int (f / midi_message_rate p)
    /\ elapsed_since_midi p' = 0%Z
    /\ elapsed_since_drawer p' = 0%Z.
Proof.
  intros p f samplesPerBlock p' sp sp'.
  repeat split.
Qed.

(** C7 as stated fails at [f = 0]: the call completes, the processor holds
    the sampling frequency 0, the lowpass angle is [2*pi*1000/0] and the
    period is 0. *)
Lemma prepare_with_zero_frequency_completes :
  let p' := prepareToPlay 0 512 (Plugin.construct 0 0 0) in
  call_setter (prepareToPlay 0 512) (Plugin.construct 0 0 0)
  <> Failed InvalidConfiguration
  /\ sampling_frequency (signalProcessor p') = 0
  /\ Filter.theta_c (lowFilter (signalProcessor p'))
     = 2 * Filter.pi * 1000 / 0
  /\ samples_per_midi_message p' = 0%Z.
Proof.
  intros p'.
  split; [discriminate |].
  split; [reflexivity | split; [reflexivity |]].
  cbn. apply to_int_below; [lra | lia].
Qed.

(** ** What preparation keeps and what it resets *)








(** ** The level is never negative *)

Lemma step_level_nonneg (o : op) (sp : SignalProcessor) :
  0 <= current_envelope_position sp ->
  0 <= current_envelope_position (step o sp).
Proof.
  intros H. destruct o; cbn [step]; try exact H.
  rewrite takeInSample_unfold. apply updateEnvelopePosition_nonneg.
Qed.

Lemma run_reachable (ops : list op) : reachable (run ops new).
Proof.
  unfold run. generalize reachable_new. generalize new.
  induction ops as [| o ops IH]; intros sp Hsp; cbn [fold_left].
  - exact Hsp.
  - apply IH. apply reachable_step. exact Hsp.
Qed.

(** C9. The envelope level is non-negative in every state the constructor and
    any sequence of operations (samples and setters, with any arguments) can
    reach. *)
Theorem envelope_level_nonneg :
  forall sp : SignalProcessor,
    reachable sp -> 0 <= current_envelope_position sp.
Proof.
  intros sp Hr. induction Hr as [| o sp Hr IH].
  - cbn. lra.
  - apply step_level_nonneg. exact IH.
Qed.

Lemma envelope_level_nonneg_witness :
  let ops := [SetSamplingFrequency 48000; SetRecoveryTimeValue 0.1;
              TakeInSample (-0.5); TakeInSample 0] in
  reachable (run ops new) /\ 0 <= current_envelope_position (run ops new).
Proof.
  intros ops.
  split; [apply run_reachable |].
  exact (envelope_level_nonneg (run ops new) (run_reachable ops)).
Defined.

(** ** A sampling-frequency change and the decay coefficient *)



(** * Further properties of the modelled code *)

(** ** The filters on a held input and at cutoff 0 *)
















(** ** The decay coefficient and the envelope over a run of samples *)



Lemma feed_decay (xs : list R) :
  forall sp, decay (feed xs sp) = decay sp.
Proof.
  induction xs as [| x rest IH]; intros sp; [reflexivity |].
  unfold feed in *. cbn [fold_left]. rewrite IH.
  rewrite updateEnvelopePosition_frame. reflexivity.
Qed.

(** X5. With a decay coefficient in [[0, 1]], the envelope never rises above
    the largest magnitude it has been fed: from a level between 0 and [B],
    any run of samples of magnitude at most [B] leaves the level between 0
    and [B]. *)
Theorem envelope_bounded_by_peak :
  forall (xs : list R) (sp : SignalProcessor) (B : R),
    0 <= decay sp <= 1 ->
    0 <= current_envelope_position sp <= B ->
    Forall (fun x => Rabs x <= B) xs ->
    0 <= current_envelope_position (feed xs sp) <= B.
Proof.
  induction xs as [| x rest IH]; intros sp B Hd Hl Hxs.
  - exact Hl.
  - inversion Hxs as [| x' rest' Hx Hrest]; subst.
    unfold feed. cbn [fold_left].
    apply IH; [| | exact Hrest].
    + rewrite (updateEnvelopePosition_frame x). exact Hd.
    + split; [apply updateEnvelopePosition_nonneg |].
      rewrite updateEnvelopePosition_level.
      apply Rmax_lub; [| exact Hx].
      apply Rle_trans with (current_envelope_position sp * 1); [| lra].
      apply Rmult_le_compat_l; lra.
Qed.

Lemma envelope_bounded_by_peak_witness :
  0 <= decay new <= 1
  /\ 0 <= current_envelope_position new <= 1
  /\ Forall (fun x => Rabs x <= 1) [0.5; -1]
  /\ 0 <= current_envelope_position (feed [0.5; -1] new) <= 1.
Proof.
  assert (H1 : 0 <= decay new <= 1) by (cbn; lra).
  assert (H2 : 0 <= current_envelope_position new <= 1) by (cbn; lra).
  assert (H3 : Forall (fun x => Rabs x <= 1) [0.5; -1]).
  { apply Forall_cons; [rewrite Rabs_pos_eq; lra |].
    apply Forall_cons; [rewrite Rabs_left; lra | apply Forall_nil]. }
  repeat split; try apply H1; try apply H2; try exact H3;
    apply (envelope_bounded_by_peak [0.5; -1] new 1 H1 H2 H3).
Defined.

(** ** The range mapping at and beyond its end points *)




(** ** Invariants of the processor's settings *)

Lemma takeInSample_same_settings (x : R) (sp : SignalProcessor) :
  same_settings (exec (takeInSample x) sp) sp.
Proof.
  rewrite takeInSample_unfold, updateEnvelopePosition_frame.
  repeat split.
Qed.

(** X7. In every state the constructor and any sequence of operations can
    reach, the sampling frequency held by the processor and the ones held by
    its two filters are the same number. *)
Theorem sampling_frequencies_agree :
  forall sp : SignalProcessor,
    reachable sp ->
    Filter.sampling_frequency (lowFilter sp) = sampling_frequency sp
    /\ Filter.sampling_frequency (highFilter sp) = sampling_frequency sp.
Proof.
  intros sp Hr. induction Hr as [| o sp Hr [IHl IHh]].
  - split; reflexivity.
  - destruct o; cbn [step].
    + destruct (takeInSample_same_settings sample sp)
        as (_ & _ & _ & Hf & _ & (_ & Hl & _) & (_ & Hh & _)).
      rewrite Hf, Hl, Hh. split; assumption.
    + split; assumption.
    + split; assumption.
    + split; assumption.
    + split; [exact IHl | exact IHh].
    + split; [exact IHl | exact IHh].
    + split; assumption.
    + split; reflexivity.
Qed.

Lemma sampling_frequencies_agree_witness :
  let ops := [SetLowpassValue 800; SetSamplingFrequency 48000;
              TakeInSample 0.5; SetHighpassValue 20] in
  reachable (run ops new)
  /\ Filter.sampling_frequency (lowFilter (run ops new))
     = sampling_frequency (run ops new).
Proof.
  intros ops.
  split; [apply run_reachable |].
  exact (proj1 (sampling_frequencies_agree (run ops new) (run_reachable ops))).
Defined.

Lemma coeff_current_same (a b : Filter.Filter) :
  same_filter_settings a b -> Filter.coeff_current b -> Filter.coeff_current a.
Proof.
  intros (Hc & Hs & Ht & Hk & Ha) (H1 & H2 & H3).
  unfold Filter.coeff_current. rewrite Hc, Hs, Ht, Hk, Ha.
  repeat split; assumption.
Qed.

(** X8. Coefficients never go stale.  Each cutoff setter leaves its filter
    with the coefficients of its stored frequencies, the sampling-frequency
    setter does so for both filters, and no operation (a processed sample or
    any setter) takes a filter from current coefficients back to stale
    ones. *)
Theorem coefficients_stay_current :
  forall (sp : SignalProcessor) (o : op) (v : R),
    (Filter.coeff_current (lowFilter sp) ->
     Filter.coeff_current (lowFilter (step o sp)))
    /\ (Filter.coeff_current (highFilter sp) ->
        Filter.coeff_current (highFilter (step o sp)))
    /\ Filter.coeff_current (lowFilter (setLowpassValue v sp))
    /\ Filter.coeff_current (highFilter (setHighpassValue v sp))
    /\ Filter.coeff_current (lowFilter (setSamplingFrequency v sp))
    /\ Filter.coeff_current (highFilter (setSamplingFrequency v sp)).
Proof.
  intros sp o v.
  split; [| split; [| repeat split]].
  - intros H. destruct o as [x | | | | | | |]; cbn [step].
    + destruct (takeInSample_same_settings x sp)
        as (_ & _ & _ & _ & _ & Hl & _).
      exact (coeff_current_same _ _ Hl H).
    + exact H.
    + exact H.
    + exact H.
    + repeat split.
    + exact H.
    + exact H.
    + repeat split.
  - intros H. destruct o as [x | | | | | | |]; cbn [step].
    + destruct (takeInSample_same_settings x sp)
        as (_ & _ & _ & _ & _ & _ & Hh).
      exact (coeff_current_same _ _ Hh H).
    + exact H.
    + exact H.
    + exact H.
    + exact H.
    + repeat split.
    + exact H.
    + repeat split.
Qed.

Lemma coefficients_stay_current_witness :
  let sp := setLowpassValue 800 new in
  Filter.coeff_current (lowFilter sp)
  /\ Filter.coeff_current (lowFilter (step (TakeInSample 0.5) sp)).
Proof.
  intros sp.
  assert (H : Filter.coeff_current (lowFilter sp)) by (repeat split).
  split; [exact H |].
  exact (proj1 (coefficients_stay_current sp (TakeInSample 0.5) 0) H).
Defined.

(** ** Silence *)

Lemma takeInSample_zero_at_rest (sp : SignalProcessor) :
  at_rest sp -> at_rest (exec (takeInSample 0) sp).
Proof.
  intros (Hl & Hli & Hlo & Hhi & Hho).
  assert (Hlp : fst (Filter.calculate_lpf (0 * gain sp) (lowFilter sp)) = 0).
  { unfold Filter.calculate_lpf. cbn [fst]. rewrite Hli, Hlo.
    unfold Rdiv. rewrite Rinv_1. ring. }
  assert (Hhp : fst (Filter.calculate_hpf 0 (highFilter sp)) = 0).
  { unfold Filter.calculate_hpf. cbn [fst]. rewrite Hhi, Hho.
    unfold Rdiv. rewrite Rinv_1. ring. }
  rewrite takeInSample_unfold. cbv zeta. rewrite Hlp, Hhp.
  unfold at_rest. rewrite updateEnvelopePosition_level.
  rewrite (updateEnvelopePosition_frame 0).
  cbn [current_envelope_position lowFilter highFilter with_highFilter
       with_lowFilter with_current_envelope_position decay].
  rewrite Hl, Rabs_R0, Rmult_0_l, Rmax_left by lra.
  unfold Filter.calculate_lpf, Filter.calculate_hpf in *.
  cbn [fst snd Filter.remember Filter.prev_input Filter.prev_output] in *.
  rewrite Hhp. repeat split; try reflexivity; try lra.
Qed.

(** X9. Silence in, silence out.  A processor whose filter memories and level
    are all 0, and whose filters hold a divisor [alpha] other than 0, stays
    exactly so under any number of zero samples, and its mapped value stays
    [(int)min_val]. *)
Theorem silence_keeps_rest :
  forall (sp : SignalProcessor) (n : nat),
    Filter.alpha (lowFilter sp) <> 0 ->
    Filter.alpha (highFilter sp) <> 0 ->
    at_rest sp ->
    at_rest (takeInSamples (repeat 0 n) sp)
    /\ getEnvelopePosition (takeInSamples (repeat 0 n) sp)
       = Cxx.to_int (min_val sp).
Proof.
  intros sp n _ _ Hrest.
  assert (H : at_rest (takeInSamples (repeat 0 n) sp)
              /\ same_settings (takeInSamples (repeat 0 n) sp) sp).
  { revert sp Hrest. induction n as [| n IH]; intros sp Hrest.
    - split; [exact Hrest | repeat split].
    - unfold takeInSamples in *. cbn [repeat fold_left].
      destruct (IH _ (takeInSample_zero_at_rest sp Hrest)) as [Hr Hs].
      split; [exact Hr |].
      pose proof (takeInSample_same_settings 0 sp) as Ht.
      unfold same_settings, same_filter_settings in *.
      repeat split; (etransitivity; [apply Hs | apply Ht]). }
  destruct H as [Hr (Hmin & Hmax & _)].
  split; [exact Hr |].
  destruct Hr as (Hl & _).
  unfold getEnvelopePosition. rewrite Hl, Hmin, Hmax.
  replace (0 * (max_val sp - min_val sp) + min_val sp) with (min_val sp) by ring.
  lia.
Qed.

Lemma silence_keeps_rest_witness :
  let f := Filter.mkFilter 0 0 1000 44100 0 1 2 in
  let sp := mkSignalProcessor 0 0 127 1 44100 0.99 f f in
  Filter.alpha (lowFilter sp) <> 0 /\ Filter.alpha (highFilter sp) <> 0
  /\ at_rest sp /\ at_rest (takeInSamples (repeat 0 3) sp).
Proof.
  intros f sp.
  assert (H1 : Filter.alpha (lowFilter sp) <> 0) by (cbn; lra).
  assert (H2 : Filter.alpha (highFilter sp) <> 0) by (cbn; lra).
  assert (H3 : at_rest sp) by (repeat split).
  split; [exact H1 | split; [exact H2 |]].
  split; [exact H3 |].
  exact (proj1 (silence_keeps_rest sp 3 H1 H2 H3)).
Defined.

(** ** What a block does to the settings, and what it sends *)

Lemma same_settings_trans (a b c : SignalProcessor) :
  same_settings a b -> same_settings b c -> same_settings a c.
Proof.
  unfold same_settings, same_filter_settings.
  intros Hab Hbc. repeat split; (etransitivity; [apply Hab | apply Hbc]).
Qed.

Lemma process_frame_frame (frame : list R) (p : EnvelopeFollowerAudioProcessor) :
  let r := process_frame frame p in
  same_settings (signalProcessor (snd r)) (signalProcessor p)
  /\ midi_channel (snd r) = midi_channel p
  /\ midi_controller_type (snd r) = midi_controller_type p
  /\ (forall m, fst r = Some m ->
        channel m = midi_channel p
        /\ controller_type m = midi_controller_type p
        /\ value m = getEnvelopePosition (signalProcessor (snd r))).
Proof.
  unfold process_frame.
  destruct (Z.eqb _ _); cbn [fst snd];
    cbn [signalProcessor with_signalProcessor with_midi_value
         with_elapsed_since_midi with_elapsed_since_drawer
         midi_channel midi_controller_type];
    (split; [apply takeInSample_same_settings |]);
    (split; [reflexivity |]); (split; [reflexivity |]).
  - intros m Hm. injection Hm as <-. repeat split.
  - intros m Hm. discriminate Hm.
Qed.

Lemma process_frames_frame (buffer : list (list R)) :
  forall p,
    same_settings (signalProcessor (snd (process_frames buffer p)))
      (signalProcessor p)
    /\ Forall (fun m =>
         channel m = midi_channel p
         /\ controller_type m = midi_controller_type p
         /\ exists sp, same_settings sp (signalProcessor p)
                       /\ value m = getEnvelopePosition sp)
         (messages (fst (process_frames buffer p))).
Proof.
  induction buffer as [| frame rest IH]; intros p.
  - split; [repeat split | apply Forall_nil].
  - cbn [process_frames].
    destruct (process_frame_frame frame p) as (Hs & Hc & Ht & Hm).
    destruct (process_frame frame p) as [m q]. cbn [fst snd] in *.
    destruct (IH q) as [IHs IHm].
    destruct (process_frames rest q) as [ms q']. cbn [fst snd] in *.
    split; [exact (same_settings_trans _ _ _ IHs Hs) |].
    unfold messages in *. cbn [flat_map]. apply Forall_app. split.
    + destruct m as [m |]; [| apply Forall_nil].
      apply Forall_cons; [| apply Forall_nil].
      destruct (Hm m eq_refl) as (H1 & H2 & H3).
      split; [exact H1 | split; [exact H2 |]].
      exists (signalProcessor q). split; assumption.
    + eapply Forall_impl; [| exact IHm].
      intros a (H1 & H2 & sp & H3 & H4). rewrite Hc, Ht in *.
      split; [exact H1 | split; [exact H2 |]].
      exists sp. split; [exact (same_settings_trans _ _ _ H3 Hs) | exact H4].
Qed.

Lemma getEnvelopePosition_bounds (sp : SignalProcessor) :
  (Z.min (Cxx.to_int (min_val sp)) (Cxx.to_int (max_val sp))
   <= getEnvelopePosition sp
   <= Z.max (Cxx.to_int (min_val sp)) (Cxx.to_int (max_val sp)))%Z.
Proof. unfold getEnvelopePosition. lia. Qed.

Lemma percent_to_midi (a : R) :
  0 <= a <= 100 -> (0 <= Cxx.to_int (a / 100 * 127) <= 127)%Z.
Proof.
  intros Ha.
  assert (H0 : 0 <= a / 100 * 127) by lra.
  assert (H1 : a / 100 * 127 <= 127) by lra.
  apply to_int_le in H0, H1. rewrite to_int_IZR in H0, H1. lia.
Qed.

(** X10. With the two range parameters within 0 to 100 percent, every message
    a block sends is a valid controller event of the selected kind: it carries
    the channel and the controller type last set with [setMidiChannel] and
    [setMidiType], and a value from 0 to 127. *)
Theorem sent_messages_are_valid :
  forall (p : EnvelopeFollowerAudioProcessor) (ch ty : Z)
         (buffer : list (list R)),
    0 <= min_pos_user_param p <= 100 ->
    0 <= max_pos_user_param p <= 100 ->
    let p' := setMidiType ty (setMidiChannel ch p) in
    Forall (fun m => channel m = ch /\ controller_type m = ty
                     /\ (0 <= value m <= 127)%Z)
      (messages (fst (processBlock buffer p'))).
Proof.
  intros p ch ty buffer Hmin Hmax p'.
  unfold processBlock.
  destruct (process_frames_frame buffer (updateMathParams p')) as [_ H].
  eapply Forall_impl; [| exact H].
  intros m (H1 & H2 & sp & (Hlo & Hhi & _) & Hv).
  split; [exact H1 | split; [exact H2 |]].
  pose proof (getEnvelopePosition_bounds sp) as Hb.
  rewrite Hlo, Hhi in Hb. rewrite <- Hv in Hb.
  change (min_val (signalProcessor (updateMathParams p')))
    with (min_pos_user_param p / 100 * 127) in Hb.
  change (max_val (signalProcessor (updateMathParams p')))
    with (max_pos_user_param p / 100 * 127) in Hb.
  pose proof (percent_to_midi _ Hmin). pose proof (percent_to_midi _ Hmax).
  lia.
Qed.

Lemma sent_messages_are_valid_witness :
  let p := prepareToPlay 20 512 (Plugin.construct 0 0 0) in
  0 <= min_pos_user_param p <= 100 /\ 0 <= max_pos_user_param p <= 100
  /\ Forall (fun m => channel m = 3%Z /\ controller_type m = 7%Z
                      /\ (0 <= value m <= 127)%Z)
       (messages (fst (processBlock [[0.5]; [0.25]]
                         (setMidiType 7 (setMidiChannel 3 p))))).
Proof.
  intros p.
  assert (H1 : 0 <= min_pos_user_param p <= 100) by (cbn; lra).
  assert (H2 : 0 <= max_pos_user_param p <= 100) by (cbn; lra).
  split; [exact H1 | split; [exact H2 |]].
  exact (sent_messages_are_valid p 3 7 [[0.5]; [0.25]] H1 H2).
Defined.

(** X11. A block applies the user parameters before its first sample and
    keeps them to its end: after [prepareToPlay] with frequency [Fs] and any
    block, the decay coefficient is [2^(-1/(max(recovery, 0.001) * Fs))] (so a
    coefficient left stale by the frequency change lasts no longer than the
    next block), the gain is [10^(dB/20)], which is positive, the bounds are
    the percentages of 127, and both filters hold current coefficients for
    [Fs] and the users' cutoffs. *)
Theorem block_applies_user_parameters :
  forall (p : EnvelopeFollowerAudioProcessor) (Fs : R) (samplesPerBlock : Z)
         (buffer : list (list R)),
    let sp := signalProcessor
                (exec (processBlock buffer)
                   (prepareToPlay Fs samplesPerBlock p)) in
    decay sp = Rpower 2 (-1 / (Rmax (recovery_user_param p) 0.001 * Fs))
    /\ (gain sp = Rpower 10 (gain_user_param p / 20) /\ 0 < gain sp)
    /\ (min_val sp = min_pos_user_param p / 100 * 127
        /\ max_val sp = max_pos_user_param p / 100 * 127)
    /\ (sampling_frequency sp = Fs
        /\ Filter.sampling_frequency (lowFilter sp) = Fs
        /\ Filter.sampling_frequency (highFilter sp) = Fs)
    /\ (Filter.cutoff_frequency (lowFilter sp) = low_pass_user_param p
        /\ Filter.cutoff_frequency (highFilter sp) = hi_pass_user_param p)
    /\ (Filter.coeff_current (lowFilter sp)
        /\ Filter.coeff_current (highFilter sp)).
Proof.
  intros p Fs samplesPerBlock buffer sp. subst sp.
  unfold exec, processBlock.
  destruct (process_frames_frame buffer
              (updateMathParams (prepareToPlay Fs samplesPerBlock p)))
    as [Hs _].
  set (q := updateMathParams (prepareToPlay Fs samplesPerBlock p)) in *.
  assert (Hcl : Filter.coeff_current (lowFilter (signalProcessor q)))
    by (repeat split).
  assert (Hch : Filter.coeff_current (highFilter (signalProcessor q)))
    by (repeat split).
  destruct Hs as (Hmin & Hmax & Hg & Hf & Hd & Hl & Hh).
  pose proof (coeff_current_same _ _ Hl Hcl) as Hl'.
  pose proof (coeff_current_same _ _ Hh Hch) as Hh'.
  destruct Hl as (Hlc & Hls & _). destruct Hh as (Hhc & Hhs & _).
  rewrite Hd, Hg, Hmin, Hmax, Hf, Hls, Hhs, Hlc, Hhc.
  split; [reflexivity |].
  split; [split; [reflexivity | apply exp_pos] |].
  split; [split; reflexivity |].
  split; [repeat split |].
  split; [split; reflexivity |].
  split; assumption.
Qed.

(** ** Message timing *)

Lemma to_int_below_one (x : R) : x < 1 -> (Cxx.to_int x <= 0)%Z.
Proof.
  intros Hx. unfold Cxx.to_int. destruct (Rle_dec 0 x) as [H | H].
  - rewrite (Zfloor_eq 0 x); [lia | lra].
  - destruct (Zceil_bound x) as [Hlo _].
    assert (Hc : (Zceil x < 1)%Z) by (apply lt_IZR; lra). lia.
Qed.

Lemma ticks_silent (s : Z) (n : nat) :
  (s <= 0)%Z ->
  forall c, (0 <= c)%Z -> (c + Z.of_nat n <= INT_MAX)%Z ->
    ticks s c n = (repeat false n, (c + Z.of_nat n)%Z).
Proof.
  intros Hs. induction n as [| n IH]; intros c Hc Hn.
  - cbn. rewrite Z.add_0_r. reflexivity.
  - cbn [ticks repeat]. rewrite incr_small by lia.
    destruct (Z.eqb_spec (c + 1) s) as [He | Hne]; [lia |].
    rewrite IH by lia. f_equal. lia.
Qed.

Lemma no_flag_no_message {A} (ms : list (option A)) (n : nat) :
  map sent ms = repeat false n -> ms = repeat None n.
Proof.
  revert n. induction ms as [| m ms IH]; intros [| n] H;
    try discriminate H; [reflexivity |].
  cbn in H. injection H as Hm Hms.
  destruct m; [discriminate Hm |]. cbn. f_equal. apply IH. exact Hms.
Qed.

(** X12. When the sampling frequency is below the message rate, so that the
    period [(int)(Fs / rate)] is 0 or negative, the counter never meets the
    period: no message is sent at any index of any run of blocks following
    [prepareToPlay] (over as many samples as an [int] can count), and the
    counter just counts the samples. *)
Theorem no_message_without_a_period :
  forall (p : EnvelopeFollowerAudioProcessor) (Fs : R) (samplesPerBlock : Z)
         (buffers : list (list (list R))),
    Fs / midi_message_rate p < 1 ->
    (Z.of_nat (length (concat buffers)) <= INT_MAX)%Z ->
    let r := processBlocks buffers (prepareToPlay Fs samplesPerBlock p) in
    fst r = repeat None (length (concat buffers))
    /\ elapsed_since_midi (snd r) = Z.of_nat (length (concat buffers)).
Proof.
  intros p Fs samplesPerBlock buffers HFs Hn r. subst r.
  destruct (processBlocks_ticks buffers (prepareToPlay Fs samplesPerBlock p))
    as [Ht _].
  change (elapsed_since_midi (prepareToPlay Fs samplesPerBlock p))
    with 0%Z in Ht.
  rewrite ticks_silent in Ht; [| | lia | lia].
  - injection Ht as Hflags Hend.
    split; [apply no_flag_no_message; exact Hflags | rewrite Hend; lia].
  - apply to_int_below_one. exact HFs.
Qed.

Lemma no_message_without_a_period_witness :
  let p := Plugin.construct 0 0 0 in
  let buffers := [[[1]; [1]]; [[1]]] in
  5 / midi_message_rate p < 1
  /\ (Z.of_nat (length (concat buffers)) <= INT_MAX)%Z
  /\ fst (processBlocks buffers (prepareToPlay 5 512 p))
     = repeat None (length (concat buffers)).
Proof.
  intros p buffers.
  assert (H1 : 5 / midi_message_rate p < 1) by (cbn; lra).
  assert (H2 : (Z.of_nat (length (concat buffers)) <= INT_MAX)%Z)
    by (cbn; unfold INT_MAX; lia).
  split; [exact H1 | split; [exact H2 |]].
  exact (proj1 (no_message_without_a_period p 5 512 buffers H1 H2)).
Defined.

(** X13. When messages are sent does not depend on how the samples are cut
    into blocks: two runs of blocks with the same total number of samples,
    started from the same state, send messages at the same sample numbers and
    end with the same counter. *)
Theorem message_timing_ignores_block_sizes :
  forall (p : EnvelopeFollowerAudioProcessor)
         (buffers1 buffers2 : list (list (list R))),
    length (concat buffers1) = length (concat buffers2) ->
    map sent (fst (processBlocks buffers1 p))
    = map sent (fst (processBlocks buffers2 p))
    /\ elapsed_since_midi (snd (processBlocks buffers1 p))
       = elapsed_since_midi (snd (processBlocks buffers2 p)).
Proof.
  intros p buffers1 buffers2 Hlen.
  destruct (processBlocks_ticks buffers1 p) as [H1 _].
  destruct (processBlocks_ticks buffers2 p) as [H2 _].
  rewrite Hlen in H1. rewrite <- H2 in H1.
  injection H1 as Hf He. split; assumption.
Qed.

Lemma message_timing_ignores_block_sizes_witness :
  let p := prepareToPlay 20 512 (Plugin.construct 0 0 0) in
  let buffers1 := [[[1]; [1]]; [[1]]] in
  let buffers2 := [[[0.5]]; [[0.5]; [0.5]]] in
  length (concat buffers1) = length (concat buffers2)
  /\ map sent (fst (processBlocks buffers1 p))
     = map sent (fst (processBlocks buffers2 p)).
Proof.
  intros p buffers1 buffers2.
  assert (H : length (concat buffers1) = length (concat buffers2))
    by reflexivity.
  split; [exact H |].
  exact (proj1 (message_timing_ignores_block_sizes p buffers1 buffers2 H)).
Defined.

(** ** Coefficients up to the Nyquist frequency *)






(** ** The knob sprite *)

Lemma Zceil_IZR (z : Z) : Zceil (IZR z) = z.
Proof. apply Zceil_eq. lra. Qed.

(** X15. For a sprite sheet at least as tall as it is wide and a slider value
    within a non-empty range, [drawRotarySlider] draws a sprite that lies
    within the sheet: a square of the sheet's width whose top is a whole
    number of sprites down and whose bottom is not below the sheet's; the
    minimum of the range selects the first sprite and the maximum the last.
    Without a valid sheet no sprite is drawn. *)
Theorem knob_sprite_within_sheet :
  forall (imgWidth imgHeight x y width height : Z) (value minimum maximum : R),
    (0 < imgWidth <= imgHeight)%Z ->
    minimum < maximum ->
    minimum <= value <= maximum ->
    let frames := Z.quot imgHeight imgWidth in
    CustomKnobs.drawRotarySlider false imgWidth imgHeight x y width height
      value minimum maximum = None
    /\ exists d,
         CustomKnobs.drawRotarySlider true imgWidth imgHeight x y width height
           value minimum maximum = Some d
         /\ CustomKnobs.srcX d = 0%Z
         /\ CustomKnobs.srcW d = imgWidth
         /\ CustomKnobs.srcH d = imgWidth
         /\ (exists i, (0 <= i < frames)%Z
                       /\ CustomKnobs.srcY d = (i * imgWidth)%Z)
         /\ (0 <= CustomKnobs.srcY d)%Z
         /\ (CustomKnobs.srcY d + CustomKnobs.srcH d <= imgHeight)%Z
         /\ (value = minimum -> CustomKnobs.srcY d = 0%Z)
         /\ (value = maximum ->
             CustomKnobs.srcY d = ((frames - 1) * imgWidth)%Z).
Proof.
  intros imgWidth imgHeight x y width height value minimum maximum
         Himg Hrange Hvalue frames.
  split; [reflexivity |].
  unfold CustomKnobs.drawRotarySlider. fold frames.
  eexists. split; [reflexivity |].
  cbn [CustomKnobs.srcX CustomKnobs.srcY CustomKnobs.srcW CustomKnobs.srcH].
  rewrite to_int_IZR.
  set (rotation := (value - minimum) / (maximum - minimum)).
  assert (Hrot : 0 <= rotation <= 1).
  { unfold rotation. split.
    - apply Rmult_le_pos; [lra |]. left. apply Rinv_0_lt_compat. lra.
    - apply Rmult_le_reg_r with (maximum - minimum); [lra |].
      replace ((value - minimum) / (maximum - minimum) * (maximum - minimum))
        with (value - minimum) by (field; lra).
      lra. }
  assert (Hframes : (1 <= frames)%Z).
  { unfold frames. rewrite Z.quot_div_nonneg by lia.
    apply Z.div_le_lower_bound; lia. }
  assert (Hsheet : (frames * imgWidth <= imgHeight)%Z).
  { unfold frames. rewrite Z.quot_div_nonneg by lia.
    rewrite Z.mul_comm. apply Z.mul_div_le. lia. }
  assert (HfR : 0 <= IZR frames - 1).
  { apply IZR_le in Hframes. lra. }
  assert (Hid : (0 <= Zceil (rotation * (IZR frames - 1)) <= frames - 1)%Z).
  { split.
    - rewrite <- (Zceil_IZR 0). apply Zceil_le. nra.
    - rewrite <- (Zceil_IZR (frames - 1)). apply Zceil_le.
      rewrite minus_IZR. nra. }
  repeat split; try reflexivity.
  - exists (Zceil (rotation * (IZR frames - 1))). split; [lia | reflexivity].
  - nia.
  - nia.
  - intros ->. unfold rotation.
    replace ((minimum - minimum) / (maximum - minimum) * (IZR frames - 1))
      with (IZR 0) by (unfold Rdiv; ring).
    rewrite Zceil_IZR. reflexivity.
  - intros ->. unfold rotation.
    replace ((maximum - minimum) / (maximum - minimum) * (IZR frames - 1))
      with (IZR (frames - 1)) by (rewrite minus_IZR; field; lra).
    rewrite Zceil_IZR. reflexivity.
Qed.

Lemma knob_sprite_within_sheet_witness :
  (0 < 64 <= 6400)%Z /\ -30 < 30 /\ -30 <= 12 <= 30
  /\ exists d,
       CustomKnobs.drawRotarySlider true 64 6400 0 0 80 80 12 (-30) 30 = Some d
       /\ (CustomKnobs.srcY d + CustomKnobs.srcH d <= 6400)%Z.
Proof.
  assert (H1 : (0 < 64 <= 6400)%Z) by lia.
  assert (H2 : -30 < 30) by lra.
  assert (H3 : -30 <= 12 <= 30) by lra.
  split; [exact H1 | split; [exact H2 | split; [exact H3 |]]].
  destruct (proj2 (knob_sprite_within_sheet 64 6400 0 0 80 80 12 (-30) 30
                     H1 H2 H3))
    as (d & Hd & _ & _ & _ & _ & _ & Hb & _).
  exists d. split; [exact Hd | exact Hb].
Defined.

(** ** Saving and restoring the parameters *)

Import String.StringSyntax.
Local Open Scope string_scope.

Lemma setStateInformation_other_tag
  (hasTagName : PluginState.XmlElement -> String.string -> bool)
  (assign : R -> R -> R -> R) (xml : PluginState.XmlElement)
  (q : EnvelopeFollowerAudioProcessor) :
  (forall n, In n ["gain"; "min"; "max"; "lo"; "hi"; "recovery"; "channel";
                   "type"] -> hasTagName xml n = false) ->
  PluginState.setStateInformation hasTagName assign (Some xml) q = q.
Proof.
  intros H.
  cbv beta delta [PluginState.setStateInformation] iota.
  rewrite (H "gain") by (cbn; tauto). cbv iota zeta beta.
  rewrite (H "min") by (cbn; tauto). cbv iota zeta beta.
  rewrite (H "max") by (cbn; tauto). cbv iota zeta beta.
  rewrite (H "lo") by (cbn; tauto). cbv iota zeta beta.
  rewrite (H "hi") by (cbn; tauto). cbv iota zeta beta.
  rewrite (H "recovery") by (cbn; tauto). cbv iota zeta beta.
  rewrite (H "channel") by (cbn; tauto). cbv iota zeta beta.
  rewrite (H "type") by (cbn; tauto).
  reflexivity.
Qed.

(** X16. The element [getStateInformation] writes holds all six user
    parameters, the channel and the controller type under their attribute
    names; but its tag name is "sliderParams", and [setStateInformation]
    restores a parameter only from an element whose tag name is that
    parameter's name.  So, for any tag-name test that accepts only names as
    long as the tag, handing the saved element back changes nothing, and
    neither does a block that does not parse. *)
Theorem saved_state_is_not_restored :
  forall (hasTagName : PluginState.XmlElement -> String.string -> bool)
         (assign : R -> R -> R -> R),
    (forall e n, hasTagName e n = true ->
                 String.length (PluginState.tagName e) = String.length n) ->
    forall p q : EnvelopeFollowerAudioProcessor,
      let xml := PluginState.getStateInformation p in
      (PluginState.getDoubleAttribute "gain" xml = gain_user_param p
       /\ PluginState.getDoubleAttribute "min" xml = min_pos_user_param p
       /\ PluginState.getDoubleAttribute "max" xml = max_pos_user_param p
       /\ PluginState.getDoubleAttribute "lo" xml = low_pass_user_param p
       /\ PluginState.getDoubleAttribute "hi" xml = hi_pass_user_param p
       /\ PluginState.getDoubleAttribute "recovery" xml = recovery_user_param p
       /\ PluginState.getIntAttribute "channel" xml = midi_channel p
       /\ PluginState.getIntAttribute "type" xml = midi_controller_type p)
      /\ PluginState.setStateInformation hasTagName assign (Some xml) q = q
      /\ PluginState.setStateInformation hasTagName assign None q = q.
Proof.
  intros hasTagName assign Htag p q xml.
  split; [repeat split |].
  split; [| reflexivity].
  apply setStateInformation_other_tag.
  intros n Hn. destruct (hasTagName xml n) eqn:E; [| reflexivity].
  apply Htag in E. cbn in E, Hn.
  repeat (destruct Hn as [<- | Hn]; [discriminate E |]).
  contradiction.
Qed.

Lemma saved_state_is_not_restored_witness :
  let p := Plugin.setMidiChannel 5 (Plugin.construct 0 0 0) in
  let q := Plugin.construct 0 0 0 in
  (forall e n, PluginState.hasTagName_exact e n = true ->
               String.length (PluginState.tagName e) = String.length n)
  /\ PluginState.setStateInformation PluginState.hasTagName_exact
       PluginState.assign_clamped (Some (PluginState.getStateInformation p)) q
     = q.
Proof.
  intros p q.
  assert (H : forall e n, PluginState.hasTagName_exact e n = true ->
                String.length (PluginState.tagName e) = String.length n).
  { intros e n E. apply String.eqb_eq in E. rewrite E. reflexivity. }
  split; [exact H |].
  exact (proj1 (proj2 (saved_state_is_not_restored
                         PluginState.hasTagName_exact
                         PluginState.assign_clamped H p q))).
Defined.

Local Close Scope string_scope.
